(** * The vanilla policy-gradient loss of [rllib/agents/pg/pg_torch_policy.py]

    The file defines two functions, [pg_torch_loss] and [pg_loss_stats], that
    communicate through the attribute [pi_err] of a long-lived policy object.

    Modelling choices.
    - Python objects live in a heap indexed by references; an object carries
      an attribute dictionary ([policy.pi_err]) and an item dictionary
      ([train_batch["actions"]]).  Both functions are computations in a
      state-and-exception monad over that heap, so that what they write and
      what they raise is part of their meaning.
    - Tensor elements follow the IEEE-754 rules for the special values
      (NaN, the two infinities, [0 * inf], [inf - inf], [0 / 0]); on finite
      values the arithmetic is exact real arithmetic.  Rounding, overflow and
      the sign of zero are abstracted there, so the theorems about the two
      functions use no identity that holds in exact arithmetic only; the
      one concrete scenario is far from overflow and carries a tolerance.
    - What rounding and overflow do to the loss is shown on the module
      [Binary32]: the expression of lines 48-49 on aligned float32 vectors,
      with the operations of IEEE-754 binary32.
    - Tensors are zero- or one-dimensional, with torch's broadcasting between
      them.
    - The model and the action distribution are collaborators that the file
      receives as arguments; they are records of functions that may raise.
      They compute from what they are handed and write nothing into the
      heap. *)

From Stdlib Require Import Reals Lra Lia ZArith SpecFloat.
From stdpp Require Import base option list gmap strings.

(** ** Scalars: tensor elements *)

Module Scalar.

Inductive scalar : Type :=
  | Fin (r : R)
  | PInf
  | NInf
  | NaN.

Inductive sign : Type := Neg | Zero | Pos.

Definition Rsign (r : R) : sign :=
  match total_order_T 0 r with
  | inleft (left _) => Pos
  | inleft (right _) => Zero
  | inright _ => Neg
  end.

Definition sign_opp (s : sign) : sign :=
  match s with Neg => Pos | Zero => Zero | Pos => Neg end.

(** [inf * x] where [x] has sign [s]; [inf * 0] is NaN. *)
Definition inf_of_sign (s : sign) : scalar :=
  match s with Pos => PInf | Zero => NaN | Neg => NInf end.

Definition sopp (x : scalar) : scalar :=
  match x with
  | Fin r => Fin (- r)
  | PInf => NInf
  | NInf => PInf
  | NaN => NaN
  end.

Definition sadd (x y : scalar) : scalar :=
  match x, y with
  | NaN, _ | _, NaN => NaN
  | Fin a, Fin b => Fin (a + b)
  | PInf, NInf | NInf, PInf => NaN
  | PInf, _ | _, PInf => PInf
  | NInf, _ | _, NInf => NInf
  end.

Definition smul (x y : scalar) : scalar :=
  match x, y with
  | NaN, _ | _, NaN => NaN
  | Fin a, Fin b => Fin (a * b)
  | Fin a, PInf | PInf, Fin a => inf_of_sign (Rsign a)
  | Fin a, NInf | NInf, Fin a => inf_of_sign (sign_opp (Rsign a))
  | PInf, PInf | NInf, NInf => PInf
  | PInf, NInf | NInf, PInf => NInf
  end.

(** Division of a scalar by an element count, as [torch.mean] does with the
    sum: the count is a non-negative integer, and a count of [0] gives
    [0 / 0 = NaN] or an infinity. *)
Definition sdivn (x : scalar) (n : nat) : scalar :=
  match n with
  | O => match x with
         | Fin r => inf_of_sign (Rsign r)
         | _ => x
         end
  | S _ => match x with
           | Fin r => Fin (r / INR n)
           | _ => x
           end
  end.

Definition is_finite (x : scalar) : Prop :=
  match x with Fin _ => True | _ => False end.

(** [torch.sum] over the elements, accumulated from [0]. *)
Definition ssum (xs : list scalar) : scalar := fold_left sadd xs (Fin 0).

End Scalar.
Export Scalar.

(** ** Exceptions and outcomes *)

Inductive exn : Type :=
  | AttributeError
  | KeyError
  | RuntimeError
  | ValueError
  | CollaboratorError (msg : string).

Inductive outcome (A : Type) : Type :=
  | Ok (a : A)
  | Raise (e : exn).
Arguments Ok {A} a.
Arguments Raise {A} e.

(** ** Tensors *)

Inductive tensor : Type :=
  | T0 (x : scalar)
  | T1 (xs : list scalar).

Definition numel (t : tensor) : nat :=
  match t with T0 _ => 1 | T1 xs => length xs end.

Definition elems (t : tensor) : list scalar :=
  match t with T0 x => [x] | T1 xs => xs end.

(** [a * b] on tensors: elementwise on equal shapes, a zero-dimensional or
    one-element operand is broadcast, any other pair of shapes raises. *)
Definition tensor_mul (a b : tensor) : outcome tensor :=
  match a, b with
  | T0 x, T0 y => Ok (T0 (smul x y))
  | T0 x, T1 ys => Ok (T1 (map (smul x) ys))
  | T1 xs, T0 y => Ok (T1 (map (λ x, smul x y) xs))
  | T1 xs, T1 ys =>
      if decide (length xs = length ys) then Ok (T1 (zip_with smul xs ys))
      else match xs, ys with
           | [x], _ => Ok (T1 (map (smul x) ys))
           | _, [y] => Ok (T1 (map (λ x, smul x y) xs))
           | _, _ => Raise RuntimeError
           end
  end.

(** [torch.mean(t)]: the sum of all elements over their number, as a
    zero-dimensional tensor. *)
Definition torch_mean (t : tensor) : tensor :=
  T0 (sdivn (ssum (elems t)) (numel t)).

(** Unary minus on a tensor. *)
Definition tensor_neg (t : tensor) : tensor :=
  match t with
  | T0 x => T0 (sopp x)
  | T1 xs => T1 (map sopp xs)
  end.

(** [t.item()]: the single element of a one-element tensor. *)
Definition tensor_item (t : tensor) : outcome scalar :=
  match elems t with
  | [x] => Ok x
  | _ => Raise ValueError
  end.

(** ** Objects and the heap *)

Inductive value : Type :=
  | VTensor (t : tensor)
  | VOther (id : positive).

(** [v.item()] on an attribute value; an object that is no tensor has no
    such method. *)
Definition value_item (v : value) : outcome scalar :=
  match v with
  | VTensor t => tensor_item t
  | VOther _ => Raise AttributeError
  end.

Record pyobj : Type := PyObj {
  attrs : gmap string value;
  items : gmap string tensor;
}.

Global Instance pyobj_inhabited : Inhabited pyobj := populate (PyObj ∅ ∅).

Definition loc : Type := positive.

Definition set_attr (name : string) (v : value) (o : pyobj) : pyobj :=
  PyObj (<[name := v]> (attrs o)) (items o).

(** ** The state-and-exception monad *)

Definition M (A : Type) : Type := gmap loc pyobj → outcome A * gmap loc pyobj.

Definition ret {A} (a : A) : M A := λ h, (Ok a, h).

Definition bind {A B} (m : M A) (k : A → M B) : M B :=
  λ h, match m h with
       | (Ok a, h') => k a h'
       | (Raise e, h') => (Raise e, h')
       end.

Definition lift {A} (r : outcome A) : M A := λ h, (r, h).

Global Instance M_ret : MRet M := @ret.
Global Instance M_bind : MBind M := λ A B k m, bind m k.

(** [o.name] *)
Definition getattr (o : loc) (name : string) : M value :=
  λ h, match attrs (h !!! o) !! name with
       | Some v => (Ok v, h)
       | None => (Raise AttributeError, h)
       end.

(** [o.name = v] *)
Definition setattr (o : loc) (name : string) (v : value) : M unit :=
  λ h, (Ok tt, <[o := set_attr name v (h !!! o)]> h).

(** [o[key]] *)
Definition getitem (o : loc) (key : string) : M tensor :=
  λ h, match items (h !!! o) !! key with
       | Some t => (Ok t, h)
       | None => (Raise KeyError, h)
       end.

(** The contents of a batch, as a collaborator that is handed the batch
    reads them. *)
Definition batch_view (o : loc) : M (gmap string tensor) :=
  λ h, (Ok (items (h !!! o)), h).

(** ** Collaborators *)

(** An action distribution: an object with a log-probability method. *)
Record TorchDistributionWrapper : Type := {
  logp : tensor → outcome tensor;
}.

(** A model: [from_batch] maps a batch to distribution parameters and a
    list of state outputs. *)
Record ModelV2 : Type := {
  from_batch : gmap string tensor → outcome (tensor * list tensor);
}.

(** A distribution class is its constructor. *)
Definition DistClass : Type :=
  tensor → ModelV2 → outcome TorchDistributionWrapper.

(** ** Field names *)

Definition ACTIONS : string := "actions".
Definition ADVANTAGES : string := "advantages".

(** ** The two functions of the file *)

Definition pg_torch_loss (policy : loc) (model : ModelV2)
    (dist_class : DistClass) (train_batch : loc) : M value :=
  batch ← batch_view train_batch;
  '(dist_inputs, _) ← lift (from_batch model batch);
  action_dist ← lift (dist_class dist_inputs model);
  actions ← getitem train_batch ACTIONS;
  log_probs ← lift (logp action_dist actions);
  advantages ← getitem train_batch ADVANTAGES;
  product ← lift (tensor_mul log_probs advantages);
  setattr policy "pi_err" (VTensor (tensor_neg (torch_mean product)));;
  getattr policy "pi_err".

Definition pg_loss_stats (policy : loc) (train_batch : loc)
    : M (gmap string scalar) :=
  pi_err ← getattr policy "pi_err";
  x ← lift (value_item pi_err);
  mret {[ "policy_loss" := x ]}.

(** ** Running the computations *)

(** The heap after [policy.pi_err = v]. *)
Definition store_pi_err (policy : loc) (v : value) (h : gmap loc pyobj)
    : gmap loc pyobj :=
  <[policy := set_attr "pi_err" v (h !!! policy)]> h.

(** A training batch at [train_batch] whose recorded actions are [actions],
    whose advantages are [advantages], and whose actions have the
    log-probabilities [log_probs] under the action distribution that
    [dist_class] builds from the outputs of [model] on the batch. *)
Record batch_scenario (h : gmap loc pyobj) (model : ModelV2)
    (dist_class : DistClass) (train_batch : loc)
    (actions log_probs advantages : tensor) : Prop := {
  sc_actions : items (h !!! train_batch) !! ACTIONS = Some actions;
  sc_advantages : items (h !!! train_batch) !! ADVANTAGES = Some advantages;
  sc_log_probs : ∃ dist_inputs state_out action_dist,
    from_batch model (items (h !!! train_batch)) = Ok (dist_inputs, state_out) ∧
    dist_class dist_inputs model = Ok action_dist ∧
    logp action_dist actions = Ok log_probs;
}.

(** ** Sums over the reals *)

Definition Rsum (l : list R) : R := fold_right Rplus 0%R l.



(** Scalars that are at most 0, [-inf] included, and scalars that are at
    least 0, [+inf] included; NaN is neither. *)
Definition nonpos (x : scalar) : Prop :=
  match x with
  | Fin r => (r <= 0)%R
  | NInf => True
  | _ => False
  end.

Definition nonneg (x : scalar) : Prop :=
  match x with
  | Fin r => (0 <= r)%R
  | PInf => True
  | _ => False
  end.

(** Lower bounds of [x ^ (2 ^ k)] in fixed point: [k] squarings, each
    rounded down. *)
Fixpoint sq_lo (scale : Z) (k : nat) (y : Z) : Z :=
  match k with
  | O => y
  | S k' => sq_lo scale k' (y * y / scale)
  end.

(** ** The loss expression in binary32 *)

Module Binary32.









End Binary32.

(** ** Concrete collaborators and heaps *)

Definition the_policy : loc := 1%positive.
Definition the_batch : loc := 2%positive.

(** A heap with a fresh policy object and one training batch. *)
Definition heap_of_batch (actions advantages : tensor) : gmap loc pyobj :=
  {[ the_policy := PyObj ∅ ∅;
     the_batch := PyObj ∅ {[ ACTIONS := actions; ADVANTAGES := advantages ]} ]}.

(** A model without outputs. *)
Definition null_model : ModelV2 :=
  {| from_batch := λ _, Ok (T1 [], []) |}.

(** The distribution class whose instances assign the log-probabilities
    [log_probs] to the recorded actions. *)
Definition tabulated (log_probs : tensor) : DistClass :=
  λ _ _, Ok {| logp := λ _, Ok log_probs |}.

(** A batch of one sample with advantage [1], the distribution that gives
    its action the log-probability [2], and the loss of that batch. *)
Definition example_heap : gmap loc pyobj :=
  heap_of_batch (T1 [Fin 0]) (T1 [Fin 1]).

Definition example_dist : DistClass := tabulated (T1 [Fin 2]).

Definition example_loss : value :=
  VTensor (tensor_neg (torch_mean (T1 [smul (Fin 2) (Fin 1)]))).

(** Collaborators that raise: a model whose forward pass fails, a
    distribution class whose constructor fails, and one whose instances fail
    to compute log-probabilities. *)
Definition failing_model (e : exn) : ModelV2 :=
  {| from_batch := λ _, Raise e |}.

Definition failing_dist_class (e : exn) : DistClass :=
  λ _ _, Raise e.

Definition failing_logp (e : exn) : DistClass :=
  λ _ _, Ok {| logp := λ _, Raise e |}.

(** A heap with a fresh policy object and a batch with the given fields. *)
Definition heap_of_items (fields : gmap string tensor) : gmap loc pyobj :=
  {[ the_policy := PyObj ∅ ∅; the_batch := PyObj ∅ fields ]}.

(** * Lemmas *)

Ltac unfold_M :=
  unfold mbind, mret, M_bind, M_ret, bind, ret, lift,
    getattr, setattr, getitem, batch_view.

Lemma store_pi_err_lookup policy v h :
  attrs (store_pi_err policy v h !!! policy) !! "pi_err" = Some v.
Proof.
  unfold store_pi_err. rewrite lookup_total_insert_eq. simpl.
  apply lookup_insert_eq.
Qed.

Lemma store_pi_err_other_attr policy v h (name : string) :
  name ≠ "pi_err" →
  attrs (store_pi_err policy v h !!! policy) !! name
  = attrs (h !!! policy) !! name.
Proof.
  intros Hne. unfold store_pi_err. rewrite lookup_total_insert_eq. simpl.
  by rewrite lookup_insert_ne.
Qed.

Lemma store_pi_err_items policy v h (o : loc) :
  items (store_pi_err policy v h !!! o) = items (h !!! o).
Proof.
  unfold store_pi_err. destruct (decide (policy = o)) as [->|Hne].
  - by rewrite lookup_total_insert_eq.
  - by rewrite lookup_total_insert_ne.
Qed.

Lemma store_pi_err_other_obj policy v h (o : loc) :
  o ≠ policy → store_pi_err policy v h !!! o = h !!! o.
Proof. intros Hne. unfold store_pi_err. by rewrite lookup_total_insert_ne. Qed.

(** Every run of [pg_torch_loss] either raises and leaves the heap as it
    was, or returns the value it has just stored in [policy.pi_err]. *)
Lemma pg_torch_loss_cases policy model dist_class train_batch h :
  (∃ e, pg_torch_loss policy model dist_class train_batch h = (Raise e, h)) ∨
  (∃ v, pg_torch_loss policy model dist_class train_batch h
        = (Ok v, store_pi_err policy v h) ∧
        ∃ t, v = VTensor (T0 t)).
Proof.
  unfold pg_torch_loss. unfold_M.
  destruct (from_batch model (items (h !!! train_batch))) as [[dist_inputs st]|e];
    [|left; eauto].
  destruct (dist_class dist_inputs model) as [action_dist|e]; [|left; eauto].
  destruct (items (h !!! train_batch) !! ACTIONS) as [actions|]; [|left; eauto].
  destruct (logp action_dist actions) as [log_probs|e]; [|left; eauto].
  destruct (items (h !!! train_batch) !! ADVANTAGES) as [advantages|];
    [|left; eauto].
  destruct (tensor_mul log_probs advantages) as [product|e]; [|left; eauto].
  right. eexists. split; [|by eexists].
  fold (store_pi_err policy (VTensor (tensor_neg (torch_mean product))) h).
  by rewrite store_pi_err_lookup.
Qed.

(** In a scenario whose product of log-probabilities and advantages is
    defined, [pg_torch_loss] returns the negated mean of that product and
    stores it. *)
Lemma pg_torch_loss_run policy model dist_class train_batch h
    actions log_probs advantages product :
  batch_scenario h model dist_class train_batch actions log_probs advantages →
  tensor_mul log_probs advantages = Ok product →
  pg_torch_loss policy model dist_class train_batch h
  = (Ok (VTensor (tensor_neg (torch_mean product))),
     store_pi_err policy (VTensor (tensor_neg (torch_mean product))) h).
Proof.
  intros [Ha Hg (dist_inputs & st & action_dist & Hm & Hd & Hl)] Hmul.
  unfold pg_torch_loss. unfold_M.
  rewrite Hm, Hd, Ha, Hl, Hg, Hmul.
  fold (store_pi_err policy (VTensor (tensor_neg (torch_mean product))) h).
  by rewrite store_pi_err_lookup.
Qed.

(** A scenario over concrete collaborators and a concrete heap holds by
    evaluation. *)
Ltac by_evaluation :=
  split; [reflexivity | reflexivity | do 3 eexists; repeat split].

Lemma example_scenario actions log_probs advantages :
  batch_scenario (heap_of_batch actions advantages) null_model
    (tabulated log_probs) the_batch actions log_probs advantages.
Proof.
  split; [reflexivity | reflexivity |].
  exists (T1 []), [], {| logp := λ _, Ok log_probs |}. by repeat split.
Qed.

(** ** Scalar arithmetic *)

Section scalar_lemmas.
Local Open Scope R_scope.

Lemma Rsign_pos r : 0 < r → Rsign r = Pos.
Proof.
  intros Hr. unfold Rsign.
  destruct (total_order_T 0 r) as [[H|H]|H]; [done | lra | lra].
Qed.

Lemma Rsign_neg r : r < 0 → Rsign r = Neg.
Proof.
  intros Hr. unfold Rsign.
  destruct (total_order_T 0 r) as [[H|H]|H]; [lra | lra | done].
Qed.

Lemma Rsign_zero r : r = 0 → Rsign r = Zero.
Proof.
  intros Hr. unfold Rsign.
  destruct (total_order_T 0 r) as [[H|H]|H]; [lra | done | lra].
Qed.

Lemma Rsign_opp r : Rsign (- r) = sign_opp (Rsign r).
Proof.
  destruct (Rtotal_order r 0) as [H|[H|H]].
  - rewrite (Rsign_neg r), (Rsign_pos (- r)) by lra. done.
  - rewrite (Rsign_zero r), (Rsign_zero (- r)) by lra. done.
  - rewrite (Rsign_pos r), (Rsign_neg (- r)) by lra. done.
Qed.

Lemma INR_S_pos n : 0 < INR (S n).
Proof. apply lt_0_INR. lia. Qed.

Lemma sopp_inf_of_sign s : sopp (inf_of_sign s) = inf_of_sign (sign_opp s).
Proof. by destruct s. Qed.

(** Negation commutes with the division by a count. *)
Lemma sopp_sdivn x n : sopp (sdivn x n) = sdivn (sopp x) n.
Proof.
  destruct n as [|n], x as [r| | |]; simpl; try done.
  - by rewrite sopp_inf_of_sign, Rsign_opp.
  - f_equal. unfold Rdiv. ring.
Qed.

Lemma fold_sadd_fin (l : list R) (a : R) :
  fold_left sadd (map Fin l) (Fin a) = Fin (a + Rsum l).
Proof.
  revert a. induction l as [|x l IH]; intros a; simpl.
  - f_equal. lra.
  - rewrite IH. f_equal. lra.
Qed.

Lemma ssum_fin (l : list R) : ssum (map Fin l) = Fin (Rsum l).
Proof. unfold ssum. rewrite fold_sadd_fin. f_equal. lra. Qed.

(** A finite log-probability times a zero advantage is zero. *)
Lemma zip_smul_zero (lp G : list scalar) :
  Forall is_finite lp → Forall (λ g, g = Fin 0) G →
  zip_with smul lp G = map Fin (repeat 0 (length (zip_with smul lp G))).
Proof.
  intros Hlp. revert G. induction Hlp as [|x lp Hx Hlp IH]; intros G HG.
  - done.
  - destruct HG as [|g G Hg HG]; [done|]. simpl.
    rewrite <- IH by done. subst g. destruct x as [r| | |]; try done.
    simpl. do 2 f_equal. lra.
Qed.

Lemma Rsum_zeros n : Rsum (repeat 0 n) = 0.
Proof. induction n as [|n IH]; simpl; [done|]. rewrite IH. lra. Qed.

End scalar_lemmas.

(** ** Bounds on [ln 2] *)

Section ln2.
Local Open Scope R_scope.

Lemma ln_lt_minus1 x : 0 < x → x ≠ 1 → ln x < x - 1.
Proof.
  intros Hx Hne.
  assert (H : 1 + (x - 1) < exp (x - 1)) by (apply exp_ineq1; lra).
  replace (1 + (x - 1)) with x in H by ring.
  apply ln_increasing in H; [|done]. by rewrite ln_exp in H.
Qed.

Lemma ln_mono x y : 0 < x → x <= y → ln x <= ln y.
Proof.
  intros Hx [Hlt| ->]; [|lra]. left. by apply ln_increasing.
Qed.

Lemma div_nonneg (a b : R) : 0 <= a → 0 < b → 0 <= a / b.
Proof. intros Ha Hb. unfold Rdiv. by apply Rle_mult_inv_pos. Qed.

Lemma floor_sq_le (scale y : Z) :
  (0 < scale)%Z →
  IZR (y * y / scale) / IZR scale <= (IZR y / IZR scale) * (IZR y / IZR scale).
Proof.
  intros Hs. assert (HS : 0 < IZR scale) by by apply IZR_lt.
  assert (Hz : (scale * (y * y / scale) <= y * y)%Z) by by apply Z.mul_div_le.
  apply IZR_le in Hz. rewrite !mult_IZR in Hz.
  apply Rmult_le_reg_r with (IZR scale * IZR scale); [nra|].
  replace (IZR (y * y / scale) / IZR scale * (IZR scale * IZR scale))
    with (IZR scale * IZR (y * y / scale)) by (field; lra).
  replace (IZR y / IZR scale * (IZR y / IZR scale) * (IZR scale * IZR scale))
    with (IZR y * IZR y) by (field; lra).
  done.
Qed.

Lemma sq_lo_sound (scale : Z) (k : nat) (y : Z) :
  (0 < scale)%Z → (0 <= y)%Z →
  0 <= IZR (sq_lo scale k y) / IZR scale <= (IZR y / IZR scale) ^ (2 ^ k).
Proof.
  intros Hs. assert (HS : 0 < IZR scale) by by apply IZR_lt.
  revert y. induction k as [|k IH]; intros y Hy.
  - simpl. rewrite Rmult_1_r. split; [|lra].
    apply div_nonneg; [by apply IZR_le | done].
  - assert (Hq : (0 <= y * y / scale)%Z) by (apply Z.div_pos; nia).
    destruct (IH _ Hq) as [H0 H1]. cbn [sq_lo]. split; [done|].
    eapply Rle_trans; [exact H1|].
    replace (2 ^ S k)%nat with (2 * 2 ^ k)%nat by (simpl; lia).
    rewrite pow_mult. apply pow_incr. split.
    + apply div_nonneg; [by apply IZR_le | done].
    + simpl. rewrite Rmult_1_r. by apply floor_sq_le.
Qed.

(** If [k] rounded squarings of [y / scale] stay above [p / scale], then
    [ln (p / scale) < 2 ^ k * (y / scale - 1)]. *)
Lemma ln_lt_of_power (scale : Z) (k : nat) (y p : Z) :
  (0 < scale)%Z → (0 < y)%Z → y ≠ scale →
  (0 < p)%Z → (p <= sq_lo scale k y)%Z →
  ln (IZR p / IZR scale) < INR (2 ^ k) * (IZR y / IZR scale - 1).
Proof.
  intros Hs Hy Hne Hp Hle.
  assert (HS : 0 < IZR scale) by by apply IZR_lt.
  assert (HY : 0 < IZR y) by by apply IZR_lt.
  assert (HP : 0 < IZR p) by by apply IZR_lt.
  assert (Hx : 0 < IZR y / IZR scale) by by apply Rdiv_lt_0_compat.
  destruct (sq_lo_sound scale k y Hs) as [_ Hpow]; [lia|].
  apply Rle_lt_trans with (ln ((IZR y / IZR scale) ^ (2 ^ k))).
  - apply ln_mono; [by apply Rdiv_lt_0_compat|].
    eapply Rle_trans; [|exact Hpow].
    apply Rmult_le_compat_r; [|by apply IZR_le].
    left. by apply Rinv_0_lt_compat.
  - rewrite ln_pow by done. apply Rmult_lt_compat_l.
    + apply lt_0_INR. pose proof (Nat.pow_nonzero 2 k). lia.
    + apply ln_lt_minus1; [done|]. intros Heq.
      apply Hne. apply eq_IZR.
      apply Rmult_eq_reg_r with (/ IZR scale).
      * fold (IZR y / IZR scale). rewrite Heq. field. lra.
      * apply Rinv_neq_0_compat. lra.
Qed.

Lemma half_power_check :
  (500000000000000 <=? sq_lo 1000000000000000 11 999661621093750)%Z = true.
Proof. vm_compute. reflexivity. Qed.

Lemma two_power_check :
  (2000000000000000 <=? sq_lo 1000000000000000 11 1000339355468750)%Z = true.
Proof. vm_compute. reflexivity. Qed.

Lemma INR_2048 : INR (2 ^ 11) = 2048.
Proof. rewrite INR_IZR_INZ. f_equal. Qed.

Lemma ln2_bounds : 0.693 < ln 2 < 0.695.
Proof.
  split.
  - pose proof (ln_lt_of_power 1000000000000000 11 999661621093750
                  500000000000000) as H.
    rewrite INR_2048 in H.
    replace (500000000000000 / 1000000000000000) with (/ 2) in H by lra.
    rewrite ln_Rinv in H by lra.
    assert (H' : - ln 2 < 2048 * (999661621093750 / 1000000000000000 - 1)).
    { apply H; [lia | lia | lia | lia |]. apply Z.leb_le. exact half_power_check. }
    lra.
  - pose proof (ln_lt_of_power 1000000000000000 11 1000339355468750
                  2000000000000000) as H.
    rewrite INR_2048 in H.
    replace (2000000000000000 / 1000000000000000) with 2 in H by lra.
    assert (H' : ln 2 < 2048 * (1000339355468750 / 1000000000000000 - 1)).
    { apply H; [lia | lia | lia | lia |]. apply Z.leb_le. exact two_power_check. }
    lra.
Qed.
End ln2.

(** ** The loss value *)

Lemma tensor_mul_aligned (lp G : list scalar) :
  length lp = length G →
  tensor_mul (T1 lp) (T1 G) = Ok (T1 (zip_with smul lp G)).
Proof. intros Hlen. simpl. by rewrite decide_True. Qed.

(** On a batch of aligned one-dimensional tensors the loss is the negated
    sum of products over the batch size. *)
Lemma pg_torch_loss_aligned policy model dist_class train_batch h actions
    (lp G : list scalar) :
  batch_scenario h model dist_class train_batch actions (T1 lp) (T1 G) →
  length lp = length G →
  (pg_torch_loss policy model dist_class train_batch h).1
  = Ok (VTensor (T0 (sopp (sdivn (ssum (zip_with smul lp G)) (length G))))).
Proof.
  intros Hsc Hlen.
  rewrite (pg_torch_loss_run _ _ _ _ _ _ _ _ _ Hsc (tensor_mul_aligned _ _ Hlen)).
  cbn. rewrite length_zip_with, Hlen, Nat.min_id. done.
Qed.

(** Shapes that do not broadcast make the product raise; nothing has been
    stored by then. *)
Example mismatched_batch_raises :
  pg_torch_loss the_policy null_model (tabulated (T1 [Fin 1; Fin 2])) the_batch
    (heap_of_batch (T1 [Fin 0; Fin 1; Fin 0]) (T1 [Fin 1; Fin 1; Fin 1]))
  = (Raise RuntimeError,
     heap_of_batch (T1 [Fin 0; Fin 1; Fin 0]) (T1 [Fin 1; Fin 1; Fin 1])).
Proof. reflexivity. Qed.

(** ** The loss in binary32 *)

Section binary32_values.
Local Open Scope R_scope.






End binary32_values.




(** C4. With actions [0, 1], advantages [1.0, -1.0] and log-probabilities
    [ln 0.5, ln 0.25], [pg_torch_loss] returns
    [-(1 * ln 0.5 + (-1) * ln 0.25) / 2], which is within [0.0005] of
    [-0.347]. *)
Theorem pg_torch_loss_scenario policy model dist_class train_batch h :
  batch_scenario h model dist_class train_batch
    (T1 [Fin 0; Fin 1]) (T1 [Fin (ln 0.5); Fin (ln 0.25)])
    (T1 [Fin 1; Fin (-1)]) →
  (pg_torch_loss policy model dist_class train_batch h).1
    = Ok (VTensor (T0 (Fin (- (1 * ln 0.5 + (-1) * ln 0.25) / 2)%R)))
  ∧ (Rabs (- (1 * ln 0.5 + (-1) * ln 0.25) / 2 - (-0.347)) < 0.0005)%R.
Proof.
  intros Hsc. split.
  - rewrite (pg_torch_loss_aligned _ _ _ _ _ _ _ _ Hsc) by done.
    cbn. do 4 f_equal. lra.
  - replace 0.5%R with (/ 2)%R by lra.
    replace 0.25%R with (/ (2 * 2))%R by lra.
    rewrite ln_Rinv, ln_Rinv, ln_mult by lra.
    pose proof ln2_bounds as [Hlo Hhi].
    apply Rabs_def1; lra.
Qed.

Lemma pg_torch_loss_scenario_witness :
  batch_scenario (heap_of_batch (T1 [Fin 0; Fin 1]) (T1 [Fin 1; Fin (-1)]))
    null_model (tabulated (T1 [Fin (ln 0.5); Fin (ln 0.25)])) the_batch
    (T1 [Fin 0; Fin 1]) (T1 [Fin (ln 0.5); Fin (ln 0.25)])
    (T1 [Fin 1; Fin (-1)])
  ∧ (pg_torch_loss the_policy null_model
       (tabulated (T1 [Fin (ln 0.5); Fin (ln 0.25)])) the_batch
       (heap_of_batch (T1 [Fin 0; Fin 1]) (T1 [Fin 1; Fin (-1)]))).1
    = Ok (VTensor (T0 (Fin (- (1 * ln 0.5 + (-1) * ln 0.25) / 2)%R))).
Proof.
  split; [by_evaluation|].
  apply (pg_torch_loss_scenario the_policy null_model
           (tabulated (T1 [Fin (ln 0.5); Fin (ln 0.25)])) the_batch _).
  by_evaluation.
Defined.

(** C6, as stated, fails: a recorded action of probability zero has the
    log-probability [-inf], and [-inf * 0] is NaN, so the loss of the batch
    with the single advantage [0] is NaN. *)
Lemma zero_advantage_infinite_logp :
  batch_scenario (heap_of_batch (T1 [Fin 0]) (T1 [Fin 0])) null_model
    (tabulated (T1 [NInf])) the_batch (T1 [Fin 0]) (T1 [NInf]) (T1 [Fin 0])
  ∧ Forall (λ g, g = Fin 0) [Fin 0]
  ∧ (pg_torch_loss the_policy null_model (tabulated (T1 [NInf])) the_batch
       (heap_of_batch (T1 [Fin 0]) (T1 [Fin 0]))).1
    = Ok (VTensor (T0 NaN))
  ∧ (pg_torch_loss the_policy null_model (tabulated (T1 [NInf])) the_batch
       (heap_of_batch (T1 [Fin 0]) (T1 [Fin 0]))).1
    ≠ Ok (VTensor (T0 (Fin 0))).
Proof.
  assert (Hrun :
    (pg_torch_loss the_policy null_model (tabulated (T1 [NInf])) the_batch
       (heap_of_batch (T1 [Fin 0]) (T1 [Fin 0]))).1 = Ok (VTensor (T0 NaN))).
  { rewrite (pg_torch_loss_aligned _ _ _ _ _ _ _ _
               (example_scenario _ _ _)) by done.
    cbn. by rewrite Rsign_zero. }
  split; [by_evaluation|].
  split; [by repeat constructor|].
  split; [done|]. by rewrite Hrun.
Qed.

(** The mean of an empty batch is [0 / 0]: the loss of a batch without
    samples is NaN as well, whatever the advantages are meant to be. *)
Lemma empty_batch_loss_nan :
  (pg_torch_loss the_policy null_model (tabulated (T1 [])) the_batch
     (heap_of_batch (T1 []) (T1 []))).1
  = Ok (VTensor (T0 NaN)).
Proof.
  rewrite (pg_torch_loss_aligned _ _ _ _ _ _ _ _ (example_scenario _ _ _))
    by done.
  cbn. by rewrite Rsign_zero.
Qed.

(** C6, amended. If every advantage is 0, the batch is not empty and every
    log-probability is finite, [pg_torch_loss] returns 0. *)
Theorem zero_advantages_finite_logp policy model dist_class train_batch h
    actions (lp G : list scalar) :
  batch_scenario h model dist_class train_batch actions (T1 lp) (T1 G) →
  length lp = length G → (0 < length G)%nat →
  Forall is_finite lp → Forall (λ g, g = Fin 0) G →
  (pg_torch_loss policy model dist_class train_batch h).1
  = Ok (VTensor (T0 (Fin 0))).
Proof.
  intros Hsc Hlen Hpos Hfin Hzero.
  rewrite (pg_torch_loss_aligned _ _ _ _ _ _ _ _ Hsc) by done.
  pose proof (zip_smul_zero lp G Hfin Hzero) as Hz.
  rewrite Hz, ssum_fin, Rsum_zeros.
  destruct (length G) as [|n]; [lia|].
  cbn [sdivn sopp]. do 4 f_equal. unfold Rdiv. rewrite Rmult_0_l. apply Ropp_0.
Qed.

Lemma zero_advantages_finite_logp_witness :
  batch_scenario (heap_of_batch (T1 [Fin 0; Fin 1]) (T1 [Fin 0; Fin 0]))
    null_model (tabulated (T1 [Fin (-1); Fin (-2)])) the_batch
    (T1 [Fin 0; Fin 1]) (T1 [Fin (-1); Fin (-2)]) (T1 [Fin 0; Fin 0])
  ∧ (pg_torch_loss the_policy null_model
       (tabulated (T1 [Fin (-1); Fin (-2)])) the_batch
       (heap_of_batch (T1 [Fin 0; Fin 1]) (T1 [Fin 0; Fin 0]))).1
    = Ok (VTensor (T0 (Fin 0))).
Proof.
  split; [by_evaluation|].
  apply (zero_advantages_finite_logp the_policy null_model
           (tabulated (T1 [Fin (-1); Fin (-2)])) the_batch _
           (T1 [Fin 0; Fin 1]) [Fin (-1); Fin (-2)] [Fin 0; Fin 0]).
  - by_evaluation.
  - reflexivity.
  - simpl. lia.
  - repeat constructor.
  - repeat constructor.
Defined.






(** ** The cached loss and the stats *)

Lemma pg_torch_loss_ok policy model dist_class train_batch h v h' :
  pg_torch_loss policy model dist_class train_batch h = (Ok v, h') →
  h' = store_pi_err policy v h ∧ ∃ x, v = VTensor (T0 x).
Proof.
  intros Hrun.
  destruct (pg_torch_loss_cases policy model dist_class train_batch h)
    as [[e He]|(v0 & Hv0 & Hx)]; rewrite Hrun in *; [done|].
  by simplify_eq.
Qed.

Lemma pg_loss_stats_cached policy train_batch h (x : scalar) :
  attrs (h !!! policy) !! "pi_err" = Some (VTensor (T0 x)) →
  pg_loss_stats policy train_batch h = (Ok {[ "policy_loss" := x ]}, h).
Proof. intros Hpi. unfold pg_loss_stats. unfold_M. by rewrite Hpi. Qed.

(** C2. After [pg_torch_loss] has returned the loss on a policy,
    [pg_loss_stats] on that policy returns a mapping with exactly one
    entry, whose value is the scalar of the loss just computed. *)
Theorem stats_after_loss policy model dist_class train_batch train_batch'
    h v h' :
  pg_torch_loss policy model dist_class train_batch h = (Ok v, h') →
  ∃ (x : scalar) (stats : gmap string scalar),
    v = VTensor (T0 x) ∧
    pg_loss_stats policy train_batch' h' = (Ok stats, h') ∧
    size stats = 1 ∧
    stats !! "policy_loss" = Some x.
Proof.
  intros Hrun.
  destruct (pg_torch_loss_ok _ _ _ _ _ _ _ Hrun) as [-> [x ->]].
  exists x, {[ "policy_loss" := x ]}. split; [done|]. split.
  - apply pg_loss_stats_cached, store_pi_err_lookup.
  - split; [apply map_size_singleton | apply lookup_singleton_eq].
Qed.

Lemma stats_after_loss_witness :
  pg_torch_loss the_policy null_model example_dist the_batch example_heap
    = (Ok example_loss, store_pi_err the_policy example_loss example_heap)
  ∧ ∃ (x : scalar) (stats : gmap string scalar),
      example_loss = VTensor (T0 x) ∧
      pg_loss_stats the_policy the_batch
        (store_pi_err the_policy example_loss example_heap)
      = (Ok stats, store_pi_err the_policy example_loss example_heap) ∧
      size stats = 1 ∧
      stats !! "policy_loss" = Some x.
Proof.
  split; [reflexivity|].
  apply (stats_after_loss the_policy null_model example_dist the_batch
           the_batch example_heap).
  reflexivity.
Defined.

(** C3. On a policy object without the attribute [pi_err], that is one on
    which [pg_torch_loss] has not run, [pg_loss_stats] raises the
    missing-attribute error and returns no mapping; the heap is as it was. *)
Theorem stats_on_fresh_policy policy train_batch h :
  attrs (h !!! policy) !! "pi_err" = None →
  pg_loss_stats policy train_batch h = (Raise AttributeError, h).
Proof. intros Hpi. unfold pg_loss_stats. unfold_M. by rewrite Hpi. Qed.

Lemma stats_on_fresh_policy_witness :
  attrs (example_heap !!! the_policy) !! "pi_err" = None
  ∧ pg_loss_stats the_policy the_batch example_heap
    = (Raise AttributeError, example_heap).
Proof.
  split; [reflexivity|].
  apply (stats_on_fresh_policy the_policy the_batch). reflexivity.
Defined.

(** C5. When [pg_torch_loss] returns a value, the final heap is the initial
    one with that value stored in the attribute [pi_err] of the policy, and
    the value returned is the one read back from that attribute: a
    zero-dimensional tensor. *)
Theorem loss_cached_in_pi_err policy model dist_class train_batch h v h' :
  pg_torch_loss policy model dist_class train_batch h = (Ok v, h') →
  h' = store_pi_err policy v h ∧
  attrs (h' !!! policy) !! "pi_err" = Some v ∧
  ∃ x, v = VTensor (T0 x).
Proof.
  intros Hrun.
  destruct (pg_torch_loss_ok _ _ _ _ _ _ _ Hrun) as [-> Hx].
  split; [done|]. split; [apply store_pi_err_lookup | done].
Qed.

Lemma loss_cached_in_pi_err_witness :
  pg_torch_loss the_policy null_model example_dist the_batch example_heap
    = (Ok example_loss, store_pi_err the_policy example_loss example_heap)
  ∧ attrs (store_pi_err the_policy example_loss example_heap !!! the_policy)
      !! "pi_err"
    = Some example_loss.
Proof.
  split; [reflexivity|].
  apply (loss_cached_in_pi_err the_policy null_model example_dist the_batch
           example_heap).
  reflexivity.
Defined.

(** ** Frame properties *)

Lemma pg_torch_loss_heap policy model dist_class train_batch h :
  (pg_torch_loss policy model dist_class train_batch h).2 = h ∨
  ∃ v, (pg_torch_loss policy model dist_class train_batch h).2
       = store_pi_err policy v h.
Proof.
  destruct (pg_torch_loss_cases policy model dist_class train_batch h)
    as [[e He]|(v & Hv & _)].
  - left. by rewrite He.
  - right. exists v. by rewrite Hv.
Qed.

Lemma pg_loss_stats_heap policy train_batch h :
  (pg_loss_stats policy train_batch h).2 = h.
Proof.
  unfold pg_loss_stats. unfold_M.
  destruct (attrs (h !!! policy) !! "pi_err") as [v|]; [|done].
  by destruct (value_item v).
Qed.

(** C8. Whatever [pg_torch_loss] does, in the final heap every attribute
    of the policy other than [pi_err] is as before, the items of the policy
    object are as before, and every other object is as before;
    [pg_loss_stats] leaves the whole heap as it was. *)
Theorem only_pi_err_written policy model dist_class train_batch h :
  (∀ name : string, name ≠ "pi_err" →
     attrs ((pg_torch_loss policy model dist_class train_batch h).2 !!! policy)
       !! name
     = attrs (h !!! policy) !! name) ∧
  items ((pg_torch_loss policy model dist_class train_batch h).2 !!! policy)
    = items (h !!! policy) ∧
  (∀ o : loc, o ≠ policy →
     (pg_torch_loss policy model dist_class train_batch h).2 !!! o = h !!! o) ∧
  (pg_loss_stats policy train_batch h).2 = h.
Proof.
  destruct (pg_torch_loss_heap policy model dist_class train_batch h)
    as [->|[v ->]].
  - repeat split; auto using pg_loss_stats_heap.
  - repeat split;
      auto using store_pi_err_other_attr, store_pi_err_items,
        store_pi_err_other_obj, pg_loss_stats_heap.
Qed.

(** C9. Neither function modifies the training batch: after
    [pg_torch_loss], whether it returned or raised, and after
    [pg_loss_stats], every field of the batch is what it was, and the batch
    object as a whole is unchanged when it is not the policy object
    itself. *)
Theorem train_batch_unchanged policy model dist_class train_batch h :
  items ((pg_torch_loss policy model dist_class train_batch h).2 !!! train_batch)
    = items (h !!! train_batch) ∧
  items ((pg_loss_stats policy train_batch h).2 !!! train_batch)
    = items (h !!! train_batch) ∧
  (train_batch ≠ policy →
   (pg_torch_loss policy model dist_class train_batch h).2 !!! train_batch
   = h !!! train_batch ∧
   (pg_loss_stats policy train_batch h).2 !!! train_batch = h !!! train_batch).
Proof.
  rewrite pg_loss_stats_heap.
  destruct (pg_torch_loss_heap policy model dist_class train_batch h)
    as [->|[v ->]]; [done|].
  split; [apply store_pi_err_items|]. split; [done|].
  intros Hne. split; [by apply store_pi_err_other_obj | done].
Qed.

Lemma train_batch_unchanged_witness :
  the_batch ≠ the_policy
  ∧ (pg_torch_loss the_policy null_model example_dist the_batch
       example_heap).2 !!! the_batch
    = example_heap !!! the_batch.
Proof.
  split; [discriminate|].
  apply (train_batch_unchanged the_policy null_model example_dist the_batch
           example_heap).
  discriminate.
Defined.

(** C10. [pg_loss_stats] does not depend on its [train_batch] argument:
    two calls on heaps in which the policy has the same [pi_err], with any
    two training batches, have the same outcome, that is the same stats
    mapping when [pi_err] is set; on one heap the two calls agree on the
    final heap too. *)
Theorem stats_ignores_train_batch policy train_batch1 train_batch2 h1 h2 :
  attrs (h1 !!! policy) !! "pi_err" = attrs (h2 !!! policy) !! "pi_err" →
  (pg_loss_stats policy train_batch1 h1).1
    = (pg_loss_stats policy train_batch2 h2).1
  ∧ pg_loss_stats policy train_batch1 h1 = pg_loss_stats policy train_batch2 h1.
Proof.
  intros Hpi. split; [|done].
  unfold pg_loss_stats. unfold_M. rewrite Hpi.
  destruct (attrs (h2 !!! policy) !! "pi_err") as [v|]; [|done].
  by destruct (value_item v).
Qed.

Lemma stats_ignores_train_batch_witness :
  attrs (store_pi_err the_policy (VTensor (T0 (Fin 3)))
           (heap_of_batch (T1 [Fin 0]) (T1 [Fin 1])) !!! the_policy) !! "pi_err"
  = attrs (store_pi_err the_policy (VTensor (T0 (Fin 3)))
             (heap_of_batch (T1 [Fin 1; Fin 0]) (T1 [Fin 5; Fin 7]))
           !!! the_policy) !! "pi_err"
  ∧ (pg_loss_stats the_policy the_batch
       (store_pi_err the_policy (VTensor (T0 (Fin 3)))
          (heap_of_batch (T1 [Fin 0]) (T1 [Fin 1])))).1
    = (pg_loss_stats the_policy the_batch
         (store_pi_err the_policy (VTensor (T0 (Fin 3)))
            (heap_of_batch (T1 [Fin 1; Fin 0]) (T1 [Fin 5; Fin 7])))).1.
Proof.
  split; [reflexivity|].
  apply (stats_ignores_train_batch the_policy the_batch the_batch
           (store_pi_err the_policy (VTensor (T0 (Fin 3)))
              (heap_of_batch (T1 [Fin 0]) (T1 [Fin 1])))
           (store_pi_err the_policy (VTensor (T0 (Fin 3)))
              (heap_of_batch (T1 [Fin 1; Fin 0]) (T1 [Fin 5; Fin 7])))).
  reflexivity.
Defined.

(** * Further properties of the two functions *)

(** ** The stages of [pg_torch_loss] *)

(** [pg_torch_loss] by stages, in the order in which the source evaluates
    them; the attribute is written only after every stage has succeeded. *)
Lemma pg_torch_loss_stages policy model dist_class train_batch h :
  pg_torch_loss policy model dist_class train_batch h =
  match from_batch model (items (h !!! train_batch)) with
  | Raise e => (Raise e, h)
  | Ok (dist_inputs, _) =>
    match dist_class dist_inputs model with
    | Raise e => (Raise e, h)
    | Ok action_dist =>
      match items (h !!! train_batch) !! ACTIONS with
      | None => (Raise KeyError, h)
      | Some actions =>
        match logp action_dist actions with
        | Raise e => (Raise e, h)
        | Ok log_probs =>
          match items (h !!! train_batch) !! ADVANTAGES with
          | None => (Raise KeyError, h)
          | Some advantages =>
            match tensor_mul log_probs advantages with
            | Raise e => (Raise e, h)
            | Ok product =>
                (Ok (VTensor (tensor_neg (torch_mean product))),
                 store_pi_err policy
                   (VTensor (tensor_neg (torch_mean product))) h)
            end
          end
        end
      end
    end
  end.
Proof.
  unfold pg_torch_loss. unfold_M.
  destruct (from_batch model (items (h !!! train_batch)))
    as [[dist_inputs st]|e]; [|done].
  destruct (dist_class dist_inputs model) as [action_dist|e]; [|done].
  destruct (items (h !!! train_batch) !! ACTIONS) as [actions|]; [|done].
  destruct (logp action_dist actions) as [log_probs|e]; [|done].
  destruct (items (h !!! train_batch) !! ADVANTAGES) as [advantages|]; [|done].
  destruct (tensor_mul log_probs advantages) as [product|e]; [|done].
  fold (store_pi_err policy (VTensor (tensor_neg (torch_mean product))) h).
  by rewrite store_pi_err_lookup.
Qed.

(** ** Errors *)

(** X1. When the batch has no field [actions], [pg_torch_loss] raises
    [KeyError] once the model and the distribution class have run, and
    writes nothing. *)
Theorem missing_actions_raises policy model dist_class train_batch h
    dist_inputs state_out action_dist :
  from_batch model (items (h !!! train_batch)) = Ok (dist_inputs, state_out) →
  dist_class dist_inputs model = Ok action_dist →
  items (h !!! train_batch) !! ACTIONS = None →
  pg_torch_loss policy model dist_class train_batch h = (Raise KeyError, h).
Proof.
  intros Hm Hd Ha. by rewrite pg_torch_loss_stages, Hm, Hd, Ha.
Qed.

Lemma missing_actions_raises_witness :
  items (heap_of_items {[ ADVANTAGES := T1 [Fin 1] ]} !!! the_batch) !! ACTIONS
    = None
  ∧ pg_torch_loss the_policy null_model example_dist the_batch
      (heap_of_items {[ ADVANTAGES := T1 [Fin 1] ]})
    = (Raise KeyError, heap_of_items {[ ADVANTAGES := T1 [Fin 1] ]}).
Proof.
  split; [reflexivity|].
  apply (missing_actions_raises the_policy null_model example_dist the_batch
           (heap_of_items {[ ADVANTAGES := T1 [Fin 1] ]})
           (T1 []) [] {| logp := λ _, Ok (T1 [Fin 2]) |});
    reflexivity.
Defined.

(** X2. When the batch has the field [actions] but no field [advantages],
    [pg_torch_loss] raises [KeyError] after the log-probabilities have been
    computed, and writes nothing. *)
Theorem missing_advantages_raises policy model dist_class train_batch h
    dist_inputs state_out action_dist actions log_probs :
  from_batch model (items (h !!! train_batch)) = Ok (dist_inputs, state_out) →
  dist_class dist_inputs model = Ok action_dist →
  items (h !!! train_batch) !! ACTIONS = Some actions →
  logp action_dist actions = Ok log_probs →
  items (h !!! train_batch) !! ADVANTAGES = None →
  pg_torch_loss policy model dist_class train_batch h = (Raise KeyError, h).
Proof.
  intros Hm Hd Ha Hl Hg. by rewrite pg_torch_loss_stages, Hm, Hd, Ha, Hl, Hg.
Qed.

Lemma missing_advantages_raises_witness :
  items (heap_of_items {[ ACTIONS := T1 [Fin 0] ]} !!! the_batch) !! ADVANTAGES
    = None
  ∧ pg_torch_loss the_policy null_model example_dist the_batch
      (heap_of_items {[ ACTIONS := T1 [Fin 0] ]})
    = (Raise KeyError, heap_of_items {[ ACTIONS := T1 [Fin 0] ]}).
Proof.
  split; [reflexivity|].
  apply (missing_advantages_raises the_policy null_model example_dist the_batch
           (heap_of_items {[ ACTIONS := T1 [Fin 0] ]})
           (T1 []) [] {| logp := λ _, Ok (T1 [Fin 2]) |}
           (T1 [Fin 0]) (T1 [Fin 2]));
    reflexivity.
Defined.

(** X3. An exception of the model's forward pass leaves [pg_torch_loss]
    unmodified and before anything else is looked at: the batch may lack its
    fields, the distribution class is not called, nothing is written. *)
Theorem model_error_propagates policy model dist_class train_batch h e :
  from_batch model (items (h !!! train_batch)) = Raise e →
  pg_torch_loss policy model dist_class train_batch h = (Raise e, h).
Proof. intros Hm. by rewrite pg_torch_loss_stages, Hm. Qed.

Lemma model_error_propagates_witness :
  pg_torch_loss the_policy (failing_model (CollaboratorError "forward"))
    example_dist the_batch (heap_of_items ∅)
  = (Raise (CollaboratorError "forward"), heap_of_items ∅).
Proof.
  apply (model_error_propagates the_policy
           (failing_model (CollaboratorError "forward")) example_dist
           the_batch (heap_of_items ∅)).
  reflexivity.
Defined.

(** X4. An exception of the distribution class, raised by its constructor
    or by [logp] on the recorded actions, leaves [pg_torch_loss] unmodified;
    nothing is written, and a missing field [advantages] goes unnoticed. *)
Theorem distribution_error_propagates policy model dist_class train_batch h
    dist_inputs state_out e :
  from_batch model (items (h !!! train_batch)) = Ok (dist_inputs, state_out) →
  (dist_class dist_inputs model = Raise e ∨
   ∃ action_dist actions,
     dist_class dist_inputs model = Ok action_dist ∧
     items (h !!! train_batch) !! ACTIONS = Some actions ∧
     logp action_dist actions = Raise e) →
  pg_torch_loss policy model dist_class train_batch h = (Raise e, h).
Proof.
  intros Hm [Hd|(action_dist & actions & Hd & Ha & Hl)];
    rewrite pg_torch_loss_stages, Hm, Hd; [done|]. by rewrite Ha, Hl.
Qed.

Lemma distribution_error_propagates_witness :
  pg_torch_loss the_policy null_model (failing_dist_class ValueError)
    the_batch (heap_of_items ∅)
  = (Raise ValueError, heap_of_items ∅)
  ∧ pg_torch_loss the_policy null_model (failing_logp ValueError)
      the_batch (heap_of_items {[ ACTIONS := T1 [Fin 0] ]})
    = (Raise ValueError, heap_of_items {[ ACTIONS := T1 [Fin 0] ]}).
Proof.
  split.
  - apply (distribution_error_propagates the_policy null_model
             (failing_dist_class ValueError) the_batch (heap_of_items ∅)
             (T1 []) []); [reflexivity|].
    left. reflexivity.
  - apply (distribution_error_propagates the_policy null_model
             (failing_logp ValueError) the_batch
             (heap_of_items {[ ACTIONS := T1 [Fin 0] ]}) (T1 []) []);
      [reflexivity|].
    right. exists {| logp := λ _, Raise ValueError |}, (T1 [Fin 0]).
    repeat split.
Defined.

Lemma tensor_mul_mismatch (lp G : list scalar) :
  length lp ≠ length G → length lp ≠ 1 → length G ≠ 1 →
  tensor_mul (T1 lp) (T1 G) = Raise RuntimeError.
Proof.
  intros Hne Hlp HG. simpl. rewrite decide_False by done.
  destruct lp as [|x [|x' lp]], G as [|y [|y' G]]; simpl in *; done.
Qed.

(** X5. One-dimensional log-probabilities and advantages of different
    lengths, neither of length one, make [pg_torch_loss] raise
    [RuntimeError]; nothing is written. *)
Theorem shape_mismatch_raises policy model dist_class train_batch h actions
    (lp G : list scalar) :
  batch_scenario h model dist_class train_batch actions (T1 lp) (T1 G) →
  length lp ≠ length G → length lp ≠ 1 → length G ≠ 1 →
  pg_torch_loss policy model dist_class train_batch h = (Raise RuntimeError, h).
Proof.
  intros [Ha Hg (dist_inputs & st & action_dist & Hm & Hd & Hl)] Hne Hlp HG.
  rewrite pg_torch_loss_stages, Hm, Hd, Ha, Hl, Hg.
  by rewrite tensor_mul_mismatch.
Qed.

Lemma shape_mismatch_raises_witness :
  pg_torch_loss the_policy null_model (tabulated (T1 [Fin 1; Fin 2])) the_batch
    (heap_of_batch (T1 [Fin 0; Fin 1; Fin 0]) (T1 [Fin 1; Fin 1; Fin 1]))
  = (Raise RuntimeError,
     heap_of_batch (T1 [Fin 0; Fin 1; Fin 0]) (T1 [Fin 1; Fin 1; Fin 1])).
Proof.
  apply (shape_mismatch_raises the_policy null_model
           (tabulated (T1 [Fin 1; Fin 2])) the_batch _
           (T1 [Fin 0; Fin 1; Fin 0]) [Fin 1; Fin 2] [Fin 1; Fin 1; Fin 1]);
    [by_evaluation | simpl; lia | simpl; lia | simpl; lia].
Defined.

(** ** Broadcasting *)




(** ** What a run leaves behind *)

(** X7. A run of [pg_torch_loss] that raises leaves the heap as it was, so
    a loss cached by an earlier run stays in [pi_err]: [pg_loss_stats] then
    reports that earlier value. *)
Theorem failed_loss_keeps_cached_value policy model dist_class train_batch
    train_batch' h e h' (x : scalar) :
  attrs (h !!! policy) !! "pi_err" = Some (VTensor (T0 x)) →
  pg_torch_loss policy model dist_class train_batch h = (Raise e, h') →
  h' = h ∧
  pg_loss_stats policy train_batch' h' = (Ok {[ "policy_loss" := x ]}, h').
Proof.
  intros Hpi Hrun.
  destruct (pg_torch_loss_cases policy model dist_class train_batch h)
    as [[e0 He]|(v & Hv & _)]; rewrite Hrun in *; [|done].
  simplify_eq. split; [done|]. by apply pg_loss_stats_cached.
Qed.

Lemma failed_loss_keeps_cached_value_witness :
  attrs (store_pi_err the_policy (VTensor (T0 (Fin 7))) (heap_of_items ∅)
         !!! the_policy) !! "pi_err"
    = Some (VTensor (T0 (Fin 7)))
  ∧ pg_torch_loss the_policy null_model example_dist the_batch
      (store_pi_err the_policy (VTensor (T0 (Fin 7))) (heap_of_items ∅))
    = (Raise KeyError,
       store_pi_err the_policy (VTensor (T0 (Fin 7))) (heap_of_items ∅))
  ∧ pg_loss_stats the_policy the_batch
      (store_pi_err the_policy (VTensor (T0 (Fin 7))) (heap_of_items ∅))
    = (Ok {[ "policy_loss" := Fin 7 ]},
       store_pi_err the_policy (VTensor (T0 (Fin 7))) (heap_of_items ∅)).
Proof.
  split; [reflexivity|]. split; [reflexivity|].
  apply (failed_loss_keeps_cached_value the_policy null_model example_dist
           the_batch the_batch
           (store_pi_err the_policy (VTensor (T0 (Fin 7))) (heap_of_items ∅))
           KeyError); reflexivity.
Defined.

(** X8. The outcome of [pg_torch_loss] does not depend on the policy: on
    two heaps whose batches have the same fields, with any two policy
    objects in any state, the same model and distribution class give the
    same loss or the same exception. *)
Theorem loss_ignores_policy_state policy1 policy2 model dist_class
    train_batch1 train_batch2 h1 h2 :
  items (h1 !!! train_batch1) = items (h2 !!! train_batch2) →
  (pg_torch_loss policy1 model dist_class train_batch1 h1).1
  = (pg_torch_loss policy2 model dist_class train_batch2 h2).1.
Proof.
  intros Hitems. rewrite !pg_torch_loss_stages, Hitems.
  destruct (from_batch model (items (h2 !!! train_batch2)))
    as [[dist_inputs st]|e]; [|done].
  destruct (dist_class dist_inputs model) as [action_dist|e]; [|done].
  destruct (items (h2 !!! train_batch2) !! ACTIONS) as [actions|]; [|done].
  destruct (logp action_dist actions) as [log_probs|e]; [|done].
  destruct (items (h2 !!! train_batch2) !! ADVANTAGES) as [advantages|];
    [|done].
  by destruct (tensor_mul log_probs advantages).
Qed.

Lemma loss_ignores_policy_state_witness :
  items (example_heap !!! the_batch)
    = items (store_pi_err the_policy (VOther 5) example_heap !!! the_batch)
  ∧ (pg_torch_loss the_policy null_model example_dist the_batch example_heap).1
    = (pg_torch_loss 3%positive null_model example_dist the_batch
         (store_pi_err the_policy (VOther 5) example_heap)).1.
Proof.
  split; [reflexivity|].
  apply (loss_ignores_policy_state the_policy 3%positive null_model
           example_dist the_batch the_batch example_heap
           (store_pi_err the_policy (VOther 5) example_heap)).
  reflexivity.
Defined.

(** ** Values that poison the loss *)

Lemma smul_nan_r x : smul x NaN = NaN.
Proof. by destruct x. Qed.

Lemma sadd_nan_r x : sadd x NaN = NaN.
Proof. by destruct x. Qed.

Lemma fold_sadd_nan (l : list scalar) : fold_left sadd l NaN = NaN.
Proof. induction l as [|x l IH]; simpl; done. Qed.

Lemma fold_sadd_elem_nan (l : list scalar) (a : scalar) :
  NaN ∈ l → fold_left sadd l a = NaN.
Proof.
  revert a. induction l as [|x l IH]; intros a Hin.
  - by apply elem_of_nil in Hin.
  - apply elem_of_cons in Hin as [<-|Hin]; simpl.
    + by rewrite sadd_nan_r, fold_sadd_nan.
    + by apply IH.
Qed.

Lemma zip_smul_elem_nan (lp G : list scalar) :
  length lp = length G → NaN ∈ lp ∨ NaN ∈ G → NaN ∈ zip_with smul lp G.
Proof.
  revert G. induction lp as [|x lp IH]; intros [|g G] Hlen Hin;
    simpl in *; try lia.
  - destruct Hin as [Hin|Hin]; by apply elem_of_nil in Hin.
  - destruct Hin as [Hin|Hin]; apply elem_of_cons in Hin as [<-|Hin].
    + simpl. left.
    + right. apply IH; [lia | by left].
    + rewrite smul_nan_r. left.
    + right. apply IH; [lia | by right].
Qed.

(** X9. One NaN among the log-probabilities or among the advantages of an
    aligned batch makes the whole loss NaN, whatever the other samples
    are. *)
Theorem nan_sample_poisons_loss policy model dist_class train_batch h actions
    (lp G : list scalar) :
  batch_scenario h model dist_class train_batch actions (T1 lp) (T1 G) →
  length lp = length G →
  NaN ∈ lp ∨ NaN ∈ G →
  (pg_torch_loss policy model dist_class train_batch h).1
  = Ok (VTensor (T0 NaN)).
Proof.
  intros Hsc Hlen Hin.
  rewrite (pg_torch_loss_aligned _ _ _ _ _ _ _ _ Hsc) by done.
  unfold ssum. rewrite fold_sadd_elem_nan by by apply zip_smul_elem_nan.
  by destruct (length G).
Qed.

Lemma nan_sample_poisons_loss_witness :
  (pg_torch_loss the_policy null_model
     (tabulated (T1 [Fin (-1); NaN; Fin (-3)])) the_batch
     (heap_of_batch (T1 [Fin 0; Fin 1; Fin 0])
        (T1 [Fin 1; Fin 0; Fin 2]))).1
  = Ok (VTensor (T0 NaN)).
Proof.
  apply (nan_sample_poisons_loss the_policy null_model
           (tabulated (T1 [Fin (-1); NaN; Fin (-3)])) the_batch _
           (T1 [Fin 0; Fin 1; Fin 0]) [Fin (-1); NaN; Fin (-3)]
           [Fin 1; Fin 0; Fin 2]);
    [by_evaluation | reflexivity |].
  left. apply list_elem_of_further, list_elem_of_here.
Defined.

(** ** The loss as a function of the advantages *)

Section advantages.
Local Open Scope R_scope.

Lemma sign_opp_involutive s : sign_opp (sign_opp s) = s.
Proof. by destruct s. Qed.

Lemma smul_sopp_r x y : smul x (sopp y) = sopp (smul x y).
Proof.
  destruct x as [a| | |], y as [b| | |]; simpl; try done.
  - f_equal. ring.
  - by rewrite sopp_inf_of_sign.
  - by rewrite sopp_inf_of_sign, sign_opp_involutive.
  - by rewrite Rsign_opp, sopp_inf_of_sign.
  - by rewrite Rsign_opp, sopp_inf_of_sign.
Qed.

Lemma sadd_sopp x y : sadd (sopp x) (sopp y) = sopp (sadd x y).
Proof. destruct x, y; simpl; try done. f_equal. ring. Qed.

Lemma zip_smul_sopp_r (lp G : list scalar) :
  zip_with smul lp (map sopp G) = map sopp (zip_with smul lp G).
Proof.
  revert G. induction lp as [|x lp IH]; intros [|g G]; simpl; try done.
  by rewrite smul_sopp_r, IH.
Qed.

Lemma fold_sadd_sopp (l : list scalar) (a : scalar) :
  fold_left sadd (map sopp l) (sopp a) = sopp (fold_left sadd l a).
Proof.
  revert a. induction l as [|x l IH]; intros a; simpl; [done|].
  by rewrite sadd_sopp, IH.
Qed.

Lemma ssum_sopp (l : list scalar) : ssum (map sopp l) = sopp (ssum l).
Proof.
  unfold ssum. rewrite <- fold_sadd_sopp. simpl. by rewrite Ropp_0.
Qed.

End advantages.

(** X11. Negating every advantage negates the loss, whatever the
    log-probabilities and advantages are: infinities change sign and NaN
    stays NaN. *)
Theorem negated_advantages_negate_loss policy1 policy2 model1 model2
    dist_class1 dist_class2 train_batch1 train_batch2 h1 h2 actions1 actions2
    (lp G : list scalar) :
  batch_scenario h1 model1 dist_class1 train_batch1 actions1 (T1 lp) (T1 G) →
  batch_scenario h2 model2 dist_class2 train_batch2 actions2
    (T1 lp) (T1 (map sopp G)) →
  length lp = length G →
  ∃ x : scalar,
    (pg_torch_loss policy1 model1 dist_class1 train_batch1 h1).1
      = Ok (VTensor (T0 x)) ∧
    (pg_torch_loss policy2 model2 dist_class2 train_batch2 h2).1
      = Ok (VTensor (T0 (sopp x))).
Proof.
  intros Hsc1 Hsc2 Hlen. eexists. split.
  - by apply (pg_torch_loss_aligned _ _ _ _ _ _ _ _ Hsc1).
  - rewrite (pg_torch_loss_aligned _ _ _ _ _ _ _ _ Hsc2)
      by by rewrite length_map.
    by rewrite zip_smul_sopp_r, ssum_sopp, length_map, <- sopp_sdivn.
Qed.

Lemma negated_advantages_negate_loss_witness :
  ∃ x : scalar,
    (pg_torch_loss the_policy null_model
       (tabulated (T1 [Fin (-1); NInf])) the_batch
       (heap_of_batch (T1 [Fin 0; Fin 1]) (T1 [Fin 3; Fin 4]))).1
      = Ok (VTensor (T0 x)) ∧
    (pg_torch_loss the_policy null_model
       (tabulated (T1 [Fin (-1); NInf])) the_batch
       (heap_of_batch (T1 [Fin 0; Fin 1]) (T1 (map sopp [Fin 3; Fin 4])))).1
      = Ok (VTensor (T0 (sopp x))).
Proof.
  apply (negated_advantages_negate_loss the_policy the_policy null_model
           null_model _ _ the_batch the_batch _ _
           (T1 [Fin 0; Fin 1]) (T1 [Fin 0; Fin 1])
           [Fin (-1); NInf] [Fin 3; Fin 4]);
    [by_evaluation | by_evaluation | reflexivity].
Defined.

(** ** The sign of the loss *)

Section signs.
Local Open Scope R_scope.

Lemma sadd_nonpos x y : nonpos x → nonpos y → nonpos (sadd x y).
Proof. destruct x, y; simpl; try done. lra. Qed.

Lemma fold_sadd_nonpos (l : list scalar) (a : scalar) :
  Forall nonpos l → nonpos a → nonpos (fold_left sadd l a).
Proof.
  intros Hl. revert a. induction Hl as [|x l Hx _ IH]; intros a Ha; simpl.
  - done.
  - apply IH. by apply sadd_nonpos.
Qed.

Lemma zip_smul_nonpos (ls gs : list R) :
  Forall (λ l, l <= 0) ls → Forall (λ g, 0 <= g) gs →
  Forall nonpos (zip_with smul (map Fin ls) (map Fin gs)).
Proof.
  intros Hls. revert gs. induction Hls as [|l ls Hl _ IH]; intros gs Hgs.
  - constructor.
  - destruct Hgs as [|g gs Hg Hgs]; simpl; constructor.
    + simpl. nra.
    + by apply IH.
Qed.

Lemma sdivn_nonpos x n : (0 < n)%nat → nonpos x → nonpos (sdivn x n).
Proof.
  intros Hn Hx. destruct n as [|n]; [lia|].
  destruct x as [r| | |]; simpl in *; try done.
  pose proof (INR_S_pos n) as Hpos. simpl in Hpos.
  assert (Hinv : 0 < / (match n with O => 1 | S _ => INR n + 1 end))
    by by apply Rinv_0_lt_compat.
  unfold Rdiv. nra.
Qed.

Lemma sopp_nonpos x : nonpos x → nonneg (sopp x).
Proof. destruct x; simpl; try done. lra. Qed.

End signs.

(** X13. With finite log-probabilities that are at most 0, as those of a
    discrete distribution are, and finite advantages that are at least 0,
    the loss of a non-empty aligned batch is never NaN and never negative:
    it is a number that is at least 0, or [+inf]. *)
Theorem loss_sign policy model dist_class train_batch h actions
    (ls gs : list R) :
  batch_scenario h model dist_class train_batch actions
    (T1 (map Fin ls)) (T1 (map Fin gs)) →
  length ls = length gs → (0 < length gs)%nat →
  Forall (λ l, l <= 0)%R ls → Forall (λ g, 0 <= g)%R gs →
  ∃ x : scalar,
    (pg_torch_loss policy model dist_class train_batch h).1
      = Ok (VTensor (T0 x)) ∧ nonneg x.
Proof.
  intros Hsc Hlen Hpos Hls Hgs. eexists. split.
  - apply (pg_torch_loss_aligned _ _ _ _ _ _ _ _ Hsc).
    by rewrite !length_map.
  - apply sopp_nonpos, sdivn_nonpos; [by rewrite length_map|].
    apply fold_sadd_nonpos; [by apply zip_smul_nonpos | simpl; lra].
Qed.

Lemma loss_sign_witness :
  ∃ x : scalar,
    (pg_torch_loss the_policy null_model
       (tabulated (T1 (map Fin [-1; -2]%R))) the_batch
       (heap_of_batch (T1 [Fin 0; Fin 1]) (T1 (map Fin [3; 0]%R)))).1
      = Ok (VTensor (T0 x)) ∧ nonneg x.
Proof.
  apply (loss_sign the_policy null_model
           (tabulated (T1 (map Fin [-1; -2]%R))) the_batch _
           (T1 [Fin 0; Fin 1]) [-1; -2]%R [3; 0]%R);
    [by_evaluation | reflexivity | simpl; lia | |].
  - repeat constructor; lra.
  - repeat constructor; lra.
Defined.

(** ** A training step: the loss, then the stats *)


